(** * Text document similarity: a shallow embedding of [main.py]

    The program keeps two CSV files in the working directory:
    [word_vec.csv], a term-document matrix with a key column [words] and one
    count column per document, and [doc_by_id.csv], the registry of the
    texts.  [similarity_check] tokenizes a text with [word_vector], merges
    the counts into the matrix as a new column, appends the text to the
    registry, writes both files back and, unless it is only adding, prints
    the three stored documents closest to the new one.

    Modelling choices, all of them about the libraries the program calls
    and not about the program itself:
    - a text is a Python [str] whose code points are below 256; the classes
      [\W] and [\s] and [str.lower] are the ones of Python 3 on that range;
    - a CSV file holds a table exactly: [read_csv] after [to_csv] gives the
      table back (no type inference, no missing-value markers), so the
      empty word is stored and read as any other word;
    - a count is an integer, a frequency an exact rational, and a distance
      is represented by its square, which orders candidates as the distance
      itself does;
    - the rows of an outer merge are those of the left table followed by
      the rows only the right table has; nothing below depends on it. *)

From Stdlib Require Import List String Ascii Bool Arith ZArith QArith.
From Stdlib Require Import Lia Lqa Permutation Sorted DecimalString DecimalNat.
Import ListNotations.

Local Close Scope Q_scope.
Local Open Scope string_scope.
Local Open Scope list_scope.

(** ** Characters: the classes of [re] and [str.lower] below code point 256 *)

Module Chars.

Definition code (c : ascii) : N := N_of_ascii c.

Definition between (lo hi : N) (c : ascii) : bool :=
  ((lo <=? code c) && (code c <=? hi))%N.

(** [\w]: letters, digits of every kind and the underscore. *)
Definition is_word (c : ascii) : bool :=
  between 48 57 c || between 65 90 c || (code c =? 95)%N || between 97 122 c
  || (code c =? 170)%N || between 178 179 c || (code c =? 181)%N
  || between 185 186 c || between 188 190 c
  || between 192 214 c || between 216 246 c || between 248 255 c.

(** [\s]. *)
Definition is_space (c : ascii) : bool :=
  between 9 13 c || between 28 32 c || (code c =? 133)%N || (code c =? 160)%N.

(** [str.lower] on one character. *)
Definition lower_char (c : ascii) : ascii :=
  if between 65 90 c || between 192 214 c || between 216 222 c
  then ascii_of_N (code c + 32)
  else c.

End Chars.

(** ** The tokenizer: [word_vector] *)

(** [re.sub("\W+", " ", s)]: every maximal run of non-word characters becomes
    one space.  [in_run] tells that the space of the current run is out. *)
Fixpoint sub_nonword (in_run : bool) (s : string) : string :=
  match s with
  | EmptyString => EmptyString
  | String c r =>
      if Chars.is_word c then String c (sub_nonword false r)
      else if in_run then sub_nonword true r
      else String " " (sub_nonword true r)
  end.

Definition re_sub_W (s : string) : string := sub_nonword false s.

(** [str.lower]. *)
Fixpoint lower (s : string) : string :=
  match s with
  | EmptyString => EmptyString
  | String c r => String (Chars.lower_char c) (lower r)
  end.

(** [re.split("\s+", s)]: the pieces between the maximal runs of white space,
    empty pieces at both ends included.  The head of the result is the piece
    being read; [in_run] tells that a run of white space is being skipped. *)
Fixpoint split_space (in_run : bool) (s : string) : list string :=
  match s with
  | EmptyString => [EmptyString]
  | String c r =>
      if Chars.is_space c then
        if in_run then split_space true r
        else EmptyString :: split_space true r
      else
        match split_space false r with
        | p :: ps => String c p :: ps
        | [] => [String c EmptyString]
        end
  end.

Definition re_split_s (s : string) : list string := split_space false s.

(** A Python [dict] from words to counts, in insertion order (the order
    [DataFrame.from_dict] keeps). *)
Definition dict := list (string * Z).

(** One turn of the counting loop: [dic[word] += 1] when the word is a key,
    [dic[word] = 1] otherwise. *)
Fixpoint count_word (word : string) (dic : dict) : dict :=
  match dic with
  | [] => [(word, 1%Z)]
  | (k, v) :: rest =>
      if String.eqb k word then (k, (v + 1)%Z) :: rest
      else (k, v) :: count_word word rest
  end.

Definition ls_words (s : string) : list string :=
  re_split_s (lower (re_sub_W s)).

Definition word_vector (s : string) : dict :=
  fold_left (fun dic word => count_word word dic) (ls_words s) [].

(** ** Tables *)

(** The term-document matrix as [pandas] holds it: the key column [words]
    comes first and is kept apart; [doc_columns] names the other columns and
    every row pairs its word with the cells of those columns, in order. *)
Record DataFrame (A : Type) : Type := mkFrame {
  doc_columns : list string;
  rows : list (string * list A)
}.

Arguments mkFrame {A} _ _.
Arguments doc_columns {A} _.
Arguments rows {A} _.

(** [df.columns] *)
Definition columns {A} (df : DataFrame A) : list string :=
  "words" :: doc_columns df.

(** The column of index [j] among the document columns. *)
Definition column {A} (d : A) (df : DataFrame A) (j : nat) : list A :=
  map (fun r => nth j (snd r) d) (rows df).

(** The words of the key column. *)
Definition words {A} (df : DataFrame A) : list string := map fst (rows df).

(** [str(n)] for a natural number. *)
Definition str (n : nat) : string := NilEmpty.string_of_uint (Nat.to_uint n).

Fixpoint lookup (word : string) (dic : dict) : option Z :=
  match dic with
  | [] => None
  | (k, v) :: rest => if String.eqb k word then Some v else lookup word rest
  end.

Definition has_key (word : string) (keys : list string) : bool :=
  existsb (String.eqb word) keys.

(** [pd.merge(left, right, how="outer", left_on="words", right_on="words")]
    where [right] has the key column and one column [name]: a row of [left]
    gets the count of its word in [right], or no value; a word only [right]
    has makes a new row with no value in the columns of [left].  [name] is
    taken to be the name of no column of [left], where [pandas] would rename
    both columns; it is none in the tables the program writes
    ([own_column_is_excluded]). *)
Definition merge (left : DataFrame Z) (name : string) (right : dict)
  : DataFrame (option Z) :=
  {| doc_columns := doc_columns left ++ [name];
     rows :=
       map (fun r => (fst r, map Some (snd r) ++ [lookup (fst r) right]))
           (rows left)
       ++ map (fun e => (fst e,
                         map (fun _ => None) (doc_columns left) ++ [Some (snd e)]))
              (filter (fun e => negb (has_key (fst e) (words left))) right) |}.

(** [df.fillna(z)] *)
Definition fillna (z : Z) (df : DataFrame (option Z)) : DataFrame Z :=
  {| doc_columns := doc_columns df;
     rows := map (fun r => (fst r,
                            map (fun c => match c with Some v => v | None => z end)
                                (snd r)))
                 (rows df) |}.

(** The rows of [doc_by_id.csv]: [doc_id] and [text]. *)
Definition registry := list (nat * string).

(** The registry in memory: each row carries its index label. *)
Definition labelled := list (nat * (nat * string)).

(** [pd.read_csv] numbers the rows from 0. *)
Definition read_registry (r : registry) : labelled :=
  combine (seq 0 (List.length r)) r.

(** [pd.concat([df, new_entry])] where [new_entry] was built with
    [index=[0]]: the new row keeps its label 0. *)
Definition concat_entry (df : labelled) (doc_id : nat) (text : string)
  : labelled :=
  df ++ [(0, (doc_id, text))].

(** [df.to_csv(..., index=False)] *)
Definition write_registry (df : labelled) : registry := map snd df.

(** [df.at[key, "text"]]: the texts of the rows labelled [key].  They are
    two for the label 0 once the new row is there, and [pandas] then gives
    both; it raises [KeyError] when there is none. *)
Definition at_text (df : labelled) (key : nat) : list string :=
  map (fun r => snd (snd r)) (filter (fun r => Nat.eqb (fst r) key) df).

(** ** The two files *)

Record files : Type := mkFiles {
  word_vec_csv : option (DataFrame Z);
  doc_by_id_csv : option registry
}.

Definition no_files : files := mkFiles None None.

(** The files as the first lines of [similarity_check] create them: the
    header rows only. *)
Definition header_only : files := mkFiles (Some (mkFrame [] [])) (Some []).

Definition bootstrap (fs : files) : files :=
  {| word_vec_csv :=
       match word_vec_csv fs with None => Some (mkFrame [] []) | f => f end;
     doc_by_id_csv :=
       match doc_by_id_csv fs with None => Some [] | f => f end |}.

Definition read_word_vec (fs : files) : DataFrame Z :=
  match word_vec_csv fs with Some df => df | None => mkFrame [] [] end.

Definition read_doc_by_id (fs : files) : labelled :=
  read_registry (match doc_by_id_csv fs with Some r => r | None => [] end).

(** ** Frequencies, distances and the ranking *)

Definition total (col : list Z) : Z := fold_right Z.add 0%Z col.

(** [df[col] / df[col].sum()]; [None] stands for the column of NaN that
    [pandas] gives when the sum is zero. *)
Definition normalise (col : list Z) : option (list Q) :=
  if (total col =? 0)%Z then None
  else Some (map (fun c => (inject_Z c / inject_Z (total col))%Q) col).

(** [df_word_vec_freq]: the normalised document columns under their names,
    each column taken at its position, which is where its name finds it when
    the names are distinct. *)
Definition word_vec_freq (df : DataFrame Z) : list (string * option (list Q)) :=
  map (fun jc => (snd jc, normalise (column 0%Z df (fst jc))))
      (combine (seq 0 (List.length (doc_columns df))) (doc_columns df)).

Fixpoint getitem {A} (col : string) (df : list (string * A)) : option A :=
  match df with
  | [] => None
  | (k, v) :: rest => if String.eqb k col then Some v else getitem col rest
  end.

(** The square of [np.linalg.norm(u - v)]. *)
Fixpoint sqdist (u v : list Q) : Q :=
  match u, v with
  | x :: u', y :: v' => ((x - y) * (x - y) + sqdist u' v')%Q
  | _, _ => 0%Q
  end.

Definition distance (u v : option (list Q)) : option Q :=
  match u, v with
  | Some u', Some v' => Some (sqdist u' v')
  | _, _ => None
  end.

(** The columns the distance loop visits: every one but the column named
    [own]. *)
Definition candidates {A} (own : string) (freq : list (string * A))
  : list (string * A) :=
  filter (fun cv => negb (String.eqb (fst cv) own)) freq.

(** The loop that fills [ls_distance]. *)
Definition distances (own : string) (search : option (list Q))
    (freq : list (string * option (list Q))) : list (option Q) :=
  map (fun cv => distance search (snd cv)) (candidates own freq).

Fixpoint all_some {A} (l : list (option A)) : option (list A) :=
  match l with
  | [] => Some []
  | Some x :: r => option_map (cons x) (all_some r)
  | None :: _ => None
  end.

(** [sorted(l, key=key)]: a stable sort; an element goes in front of the
    sorted rest, before the first element whose key is not smaller. *)
Fixpoint insert_by (key : nat -> Q) (k : nat) (l : list nat) : list nat :=
  match l with
  | [] => [k]
  | h :: t => if Qle_bool (key k) (key h) then k :: l else h :: insert_by key k t
  end.

Definition sorted_by (key : nat -> Q) (l : list nat) : list nat :=
  fold_right (insert_by key) [] l.

(** ** What a call prints, and how it ends *)

Inductive line : Type :=
| AddMore                                 (* "Add at least one more document ..." *)
| Rule                                    (* "-"*20 *)
| Header (rank : nat) (distance2 : Q)     (* "This is the <rank>. most similar ..." *)
| Text (texts : list string).             (* the text looked up in the registry *)

Inductive outcome : Type :=
| Returned (printed : list line)          (* the call returns [None] *)
| KeyError (printed : list line)          (* [df_whole_doc.at] raised *)
| NotANumber.                             (* a distance is NaN: not modelled *)

Definition printed_first (ls : list line) (o : outcome) : outcome :=
  match o with
  | Returned out => Returned (ls ++ out)
  | KeyError out => KeyError (ls ++ out)
  | NotANumber => NotANumber
  end.

(** The printing loop over [enumerate(sort_ls)], from [index] on. *)
Fixpoint report (add_document : bool) (ls_distance : list Q)
    (df_whole_doc : labelled) (index : nat) (sort_ls : list nat) : outcome :=
  match sort_ls with
  | [] => Returned []
  | key :: rest =>
      let next :=
        if Nat.eqb index 2 then Returned []
        else report add_document ls_distance df_whole_doc (S index) rest in
      if add_document then next
      else
        let head := [Rule; Header (index + 1) (nth key ls_distance 0%Q)] in
        match at_text df_whole_doc key with
        | [] => KeyError head
        | texts => printed_first (head ++ [Text texts]) next
        end
  end.

(** ** [similarity_check] *)

(** The second half of the function, from the frequencies to the printing
    loop (lines 109 to 137).  With a NaN among the distances the order that
    [sorted] gives is not modelled: the call ends in [NotANumber], unless it
    only adds, in which case nothing is printed whatever the order. *)
Definition compare_documents (add_document : bool) (doc_id : nat)
    (df_word_vec : DataFrame Z) (df_whole_doc : labelled) : outcome :=
  let df_word_vec_freq := word_vec_freq df_word_vec in
  match getitem (str doc_id) df_word_vec_freq with
  | None => KeyError []
  | Some np_wv_search =>
      match all_some (distances (str doc_id) np_wv_search df_word_vec_freq) with
      | None => if add_document then Returned [] else NotANumber
      | Some ls_distance =>
          let sort_ls :=
            sorted_by (fun k => nth k ls_distance 0%Q)
                      (seq 0 (List.length ls_distance)) in
          report add_document ls_distance df_whole_doc 0 sort_ls
      end
  end.

(** The whole function: the files after the call, and how the call ends. *)
Definition similarity_check (document_str : string) (add_document : bool)
    (fs : files) : files * outcome :=
  let fs := bootstrap fs in
  let df_whole_doc := read_doc_by_id fs in
  let df_word_vec := read_word_vec fs in
  let doc_id := List.length (columns df_word_vec) in
  let df_whole_doc := concat_entry df_whole_doc doc_id document_str in
  let df_wvec := word_vector document_str in
  let df_word_vec := fillna 0 (merge df_word_vec (str doc_id) df_wvec) in
  let saved := {| word_vec_csv := Some df_word_vec;
                  doc_by_id_csv := Some (write_registry df_whole_doc) |} in
  if Nat.eqb doc_id 1 && negb add_document then (saved, Returned [AddMore])
  else (saved, compare_documents add_document doc_id df_word_vec df_whole_doc).

(** ** Notions the statements are written with *)

(** The terms of a text: the keys of its word vector. *)
Definition vocabulary (s : string) : list string := map fst (word_vector s).

(** The count of a word in a word vector, 0 when it is not a key. *)
Definition count (word : string) (dic : dict) : Z :=
  match lookup word dic with Some v => v | None => 0%Z end.

(** A history of calls, each with its text and its [add_document] flag,
    played from the header-only files. *)
Definition step (fs : files) (call : string * bool) : files :=
  fst (similarity_check (fst call) (snd call) fs).

Definition replay (h : list (string * bool)) : files :=
  fold_left step h header_only.

Definition corpus (h : list (string * bool)) : list string := map fst h.

(** The terms of a list of texts, each once, in order of first occurrence. *)
Definition add_terms (acc : list string) (d : string) : list string :=
  acc ++ filter (fun w => negb (has_key w acc)) (vocabulary d).

Definition terms (docs : list string) : list string :=
  fold_left add_terms docs [].

(** The matrix of a list of texts in closed form: column [k] is named
    [str k] and holds the counts of the [k]-th text. *)
Definition matrix_of (docs : list string) : DataFrame Z :=
  {| doc_columns := map str (seq 1 (List.length docs));
     rows := map (fun w => (w, map (fun d => count w (word_vector d)) docs))
                 (terms docs) |}.

Definition registry_of (docs : list string) : registry :=
  combine (seq 1 (List.length docs)) docs.



(** The frequency vector of the document column of index [j]. *)
Definition freq_vector (df : DataFrame Z) (j : nat) : list Q :=
  map (fun c => (inject_Z c / inject_Z (total (column 0%Z df j)))%Q)
      (column 0%Z df j).

(** The squared distance between the document columns of indices [i] and
    [j]. *)
Definition dist2 (df : DataFrame Z) (i j : nat) : Q :=
  sqdist (freq_vector df i) (freq_vector df j).

Fixpoint dot (u v : list Q) : Q :=
  match u, v with
  | x :: u', y :: v' => (x * y + dot u' v')%Q
  | _, _ => 0%Q
  end.

Definition normsq (u : list Q) : Q := dot u u.

Definition qsum (u : list Q) : Q := fold_right Qplus 0%Q u.

(** The counts [c] of the words [l], each divided by [t]. *)
Definition scaled (c : string -> Z) (t : Q) (l : list string) : list Q :=
  map (fun w => (inject_Z (c w) / t)%Q) l.




(** The rows of the registry file, none when the file is missing. *)
Definition stored_registry (fs : files) : registry :=
  match doc_by_id_csv fs with Some r => r | None => [] end.

(** The id a call gives to its document. *)
Definition next_id (fs : files) : nat :=
  List.length (columns (read_word_vec fs)).

(** The files a call leaves behind. *)
Definition written (text : string) (fs : files) : files :=
  {| word_vec_csv :=
       Some (fillna 0 (merge (read_word_vec fs) (str (next_id fs))
                             (word_vector text)));
     doc_by_id_csv := Some (stored_registry fs ++ [(next_id fs, text)]) |}.

(** What the counting loop keeps true of the dictionary. *)
Definition dict_ok (dic : dict) : Prop :=
  NoDup (map fst dic) /\ Forall (fun e => (1 <= snd e)%Z) dic.

(** ** Notions for the further properties *)

(** Line 40 in one pass over the text: a word character goes, lowered, to
    the piece being read, and the first character of a run of others closes
    that piece. *)
Fixpoint scan (in_run : bool) (s : string) : list string :=
  match s with
  | EmptyString => [EmptyString]
  | String c r =>
      if Chars.is_word c then
        match scan false r with
        | p :: ps => String (Chars.lower_char c) p :: ps
        | [] => [String (Chars.lower_char c) EmptyString]
        end
      else if in_run then scan true r
      else EmptyString :: scan true r
  end.

Fixpoint all_chars (p : ascii -> bool) (s : string) : bool :=
  match s with
  | EmptyString => true
  | String c r => p c && all_chars p r
  end.


Definition starts_nonword (s : string) : bool :=
  match s with
  | EmptyString => false
  | String c _ => negb (Chars.is_word c)
  end.

Fixpoint ends_nonword (s : string) : bool :=
  match s with
  | EmptyString => false
  | String c EmptyString => negb (Chars.is_word c)
  | String _ r => ends_nonword r
  end.

(** How often a word occurs in a list of pieces. *)
Definition occurrences (w : string) (l : list string) : Z :=
  Z.of_nat (count_occ string_dec l w).

(** What a call printed, whether it returned or raised. *)
Definition printed (o : outcome) : list line :=
  match o with
  | Returned out => out
  | KeyError out => out
  | NotANumber => []
  end.

(** The ranks on the header lines of an output. *)
Fixpoint ranks (out : list line) : list nat :=
  match out with
  | [] => []
  | Header r _ :: rest => r :: ranks rest
  | _ :: rest => ranks rest
  end.


(** * Properties *)

(** ** The tokenizer *)

Lemma split_space_nonempty (in_run : bool) (s : string) :
  split_space in_run s <> [].
Proof.
  revert in_run; induction s as [|c r IH]; intros in_run; simpl.
  - discriminate.
  - destruct (Chars.is_space c).
    + destruct in_run; [apply IH | discriminate].
    + destruct (split_space false r); discriminate.
Qed.

Lemma ls_words_nonempty (s : string) : ls_words s <> [].
Proof. apply split_space_nonempty. Qed.

Lemma count_word_nonempty (word : string) (dic : dict) :
  count_word word dic <> [].
Proof.
  destruct dic as [|[k v] rest]; simpl; [discriminate|].
  destruct (String.eqb k word); discriminate.
Qed.

Lemma count_word_In_key (word : string) (dic : dict) (w : string) :
  In w (map fst (count_word word dic)) <-> w = word \/ In w (map fst dic).
Proof.
  induction dic as [|[k v] rest IH]; simpl.
  - intuition.
  - destruct (String.eqb_spec k word) as [->|Hne]; simpl.
    + intuition.
    + rewrite IH. intuition.
Qed.

Lemma count_word_NoDup (word : string) (dic : dict) :
  NoDup (map fst dic) -> NoDup (map fst (count_word word dic)).
Proof.
  induction dic as [|[k v] rest IH]; simpl; intros Hnd.
  - constructor; [intros [] | constructor].
  - inversion Hnd as [|? ? Hk Hrest]; subst.
    destruct (String.eqb_spec k word) as [->|Hne]; simpl.
    + constructor; assumption.
    + constructor; [|auto].
      rewrite count_word_In_key. intros [->|Hin]; [congruence | contradiction].
Qed.

Lemma count_word_positive (word : string) (dic : dict) :
  Forall (fun e => (1 <= snd e)%Z) dic ->
  Forall (fun e => (1 <= snd e)%Z) (count_word word dic).
Proof.
  induction 1 as [|[k v] rest Hv Hrest IH]; simpl.
  - repeat constructor. simpl; lia.
  - destruct (String.eqb k word); constructor; simpl in *; auto; lia.
Qed.

Lemma counting_loop_ok (ws : list string) (dic : dict) :
  dict_ok dic ->
  dict_ok (fold_left (fun dic word => count_word word dic) ws dic).
Proof.
  revert dic; induction ws as [|w ws IH]; intros dic [Hnd Hpos]; simpl.
  - split; assumption.
  - apply IH. split; [apply count_word_NoDup | apply count_word_positive]; auto.
Qed.

Lemma counting_loop_nonempty (ws : list string) (dic : dict) :
  dic <> [] ->
  fold_left (fun dic word => count_word word dic) ws dic <> [].
Proof.
  revert dic; induction ws as [|w ws IH]; intros dic Hne; simpl; auto.
  apply IH, count_word_nonempty.
Qed.

Lemma counting_loop_keys (ws : list string) (dic : dict) (w : string) :
  In w (map fst (fold_left (fun dic word => count_word word dic) ws dic))
  <-> In w ws \/ In w (map fst dic).
Proof.
  revert dic; induction ws as [|x ws IH]; intros dic; simpl.
  - intuition.
  - rewrite IH, count_word_In_key. intuition.
Qed.

Lemma word_vector_ok (s : string) : dict_ok (word_vector s).
Proof. apply counting_loop_ok. split; constructor. Qed.

Lemma word_vector_nonempty (s : string) : word_vector s <> [].
Proof.
  unfold word_vector. destruct (ls_words s) as [|w ws] eqn:E.
  - exfalso; exact (ls_words_nonempty s E).
  - simpl. apply counting_loop_nonempty. discriminate.
Qed.

Lemma vocabulary_words (s : string) (w : string) :
  In w (vocabulary s) <-> In w (ls_words s).
Proof.
  unfold vocabulary, word_vector. rewrite counting_loop_keys. simpl. intuition.
Qed.

Lemma vocabulary_nonempty (s : string) : exists w, In w (vocabulary s).
Proof.
  unfold vocabulary. pose proof (word_vector_nonempty s) as Hne.
  destruct (word_vector s) as [|[k v] rest]; [congruence|].
  exists k. left; reflexivity.
Qed.

Lemma vocabulary_NoDup (s : string) : NoDup (vocabulary s).
Proof. apply word_vector_ok. Qed.

(** ** Dictionaries and keys *)

Lemma has_key_In (w : string) (keys : list string) :
  has_key w keys = true <-> In w keys.
Proof.
  unfold has_key. rewrite existsb_exists. split.
  - intros [x [Hin Heq]]. apply String.eqb_eq in Heq. subst; assumption.
  - intros Hin. exists w. split; [assumption | apply String.eqb_refl].
Qed.

Lemma has_key_false (w : string) (keys : list string) :
  has_key w keys = false <-> ~ In w keys.
Proof.
  rewrite <- has_key_In. destruct (has_key w keys); intuition congruence.
Qed.

Lemma lookup_None (w : string) (dic : dict) :
  lookup w dic = None <-> ~ In w (map fst dic).
Proof.
  induction dic as [|[k v] rest IH]; simpl.
  - intuition.
  - destruct (String.eqb_spec k w) as [->|Hne].
    + split; [discriminate | intros H; exfalso; apply H; auto].
    + rewrite IH. intuition.
Qed.

Lemma lookup_In (w : string) (c : Z) (dic : dict) :
  NoDup (map fst dic) -> In (w, c) dic -> lookup w dic = Some c.
Proof.
  induction dic as [|[k v] rest IH]; simpl; intros Hnd Hin; [contradiction|].
  inversion Hnd as [|? ? Hk Hrest]; subst.
  destruct Hin as [Heq|Hin].
  - inversion Heq; subst. rewrite String.eqb_refl. reflexivity.
  - destruct (String.eqb_spec k w) as [->|Hne]; [|auto].
    exfalso. apply Hk. apply (in_map fst) in Hin. exact Hin.
Qed.

Lemma lookup_Some_In (w : string) (c : Z) (dic : dict) :
  lookup w dic = Some c -> In (w, c) dic.
Proof.
  induction dic as [|[k v] rest IH]; simpl; [discriminate|].
  destruct (String.eqb_spec k w) as [->|Hne].
  - intros H; inversion H; subst; auto.
  - auto.
Qed.

Lemma count_absent (w : string) (dic : dict) :
  ~ In w (map fst dic) -> count w dic = 0%Z.
Proof. intros H. unfold count. apply lookup_None in H. rewrite H. reflexivity. Qed.

Lemma count_present (w : string) (dic : dict) :
  dict_ok dic -> In w (map fst dic) -> (1 <= count w dic)%Z.
Proof.
  intros [_ Hpos] Hin. unfold count.
  destruct (lookup w dic) as [c|] eqn:E.
  - apply lookup_Some_In in E. rewrite Forall_forall in Hpos.
    exact (Hpos _ E).
  - apply lookup_None in E. contradiction.
Qed.

Lemma count_nonneg (w : string) (dic : dict) :
  dict_ok dic -> (0 <= count w dic)%Z.
Proof.
  intros Hok. destruct (in_dec string_dec w (map fst dic)) as [Hin|Hout].
  - pose proof (count_present w dic Hok Hin). lia.
  - rewrite count_absent by assumption. lia.
Qed.

Lemma count_nonzero (w : string) (dic : dict) :
  count w dic <> 0%Z -> In w (map fst dic).
Proof.
  intros H. destruct (in_dec string_dec w (map fst dic)) as [Hin|Hout]; auto.
  exfalso. apply H, count_absent, Hout.
Qed.

(** ** The terms of a corpus *)

Lemma add_terms_loop_In (docs : list string) (acc : list string) (w : string) :
  In w (fold_left add_terms docs acc)
  <-> In w acc \/ exists d, In d docs /\ In w (vocabulary d).
Proof.
  revert acc; induction docs as [|d docs IH]; intros acc; simpl.
  - split; [auto | intros [H|[d [[] _]]]; exact H].
  - rewrite IH. unfold add_terms. rewrite in_app_iff, filter_In.
    split.
    + intros [[H|[H _]]|[d' [Hd Hw]]]; eauto.
    + intros [H|[d' [[<-|Hd] Hw]]]; eauto.
      destruct (has_key w acc) eqn:E.
      * apply has_key_In in E. auto.
      * left; right. split; [assumption | reflexivity].
Qed.


Lemma terms_In (docs : list string) (w : string) :
  In w (terms docs) <-> exists d, In d docs /\ In w (vocabulary d).
Proof.
  unfold terms. rewrite add_terms_loop_In. simpl. intuition.
Qed.


Lemma terms_snoc (docs : list string) (d : string) :
  terms (docs ++ [d]) = add_terms (terms docs) d.
Proof. unfold terms. rewrite fold_left_app. reflexivity. Qed.

(** ** The files a call writes *)

Lemma map_snd_combine_seq {A} (l : list A) (start : nat) :
  map snd (combine (seq start (List.length l)) l) = l.
Proof.
  revert start; induction l as [|x l IH]; intros start; simpl; [reflexivity|].
  f_equal. apply IH.
Qed.

Lemma write_read_registry (r : registry) (doc_id : nat) (text : string) :
  write_registry (concat_entry (read_registry r) doc_id text)
  = r ++ [(doc_id, text)].
Proof.
  unfold write_registry, concat_entry, read_registry.
  rewrite map_app, map_snd_combine_seq. reflexivity.
Qed.

Lemma read_word_vec_bootstrap (fs : files) :
  read_word_vec (bootstrap fs) = read_word_vec fs.
Proof. unfold read_word_vec, bootstrap; simpl. destruct (word_vec_csv fs); reflexivity. Qed.

Lemma read_doc_by_id_bootstrap (fs : files) :
  read_doc_by_id (bootstrap fs) = read_registry (stored_registry fs).
Proof.
  unfold read_doc_by_id, stored_registry, bootstrap; simpl.
  destruct (doc_by_id_csv fs); reflexivity.
Qed.

(** The files written do not depend on the flag nor on how the call ends. *)
Lemma similarity_check_written (text : string) (b : bool) (fs : files) :
  fst (similarity_check text b fs) = written text fs.
Proof.
  unfold similarity_check, written, next_id.
  rewrite read_word_vec_bootstrap, read_doc_by_id_bootstrap, write_read_registry.
  destruct (_ && _); reflexivity.
Qed.

Lemma similarity_check_outcome (text : string) (b : bool) (fs : files) :
  snd (similarity_check text b fs)
  = if Nat.eqb (next_id fs) 1 && negb b then Returned [AddMore]
    else compare_documents b (next_id fs) (read_word_vec (written text fs))
           (concat_entry (read_registry (stored_registry fs)) (next_id fs) text).
Proof.
  unfold similarity_check, written, next_id.
  rewrite read_word_vec_bootstrap, read_doc_by_id_bootstrap.
  destruct (_ && _); reflexivity.
Qed.

(** ** The state after a history, in closed form *)

Lemma words_matrix_of (docs : list string) : words (matrix_of docs) = terms docs.
Proof.
  unfold words, matrix_of; simpl. rewrite map_map; simpl. apply map_id.
Qed.

Lemma doc_columns_matrix_of (docs : list string) :
  List.length (doc_columns (matrix_of docs)) = List.length docs.
Proof. unfold matrix_of; simpl. rewrite length_map, length_seq. reflexivity. Qed.

Lemma filter_map_fst {A B} (p : A -> bool) (l : list (A * B)) :
  map fst (filter (fun e => p (fst e)) l) = filter p (map fst l).
Proof.
  induction l as [|[a b] l IH]; simpl; [reflexivity|].
  destruct (p a); simpl; rewrite IH; reflexivity.
Qed.

Lemma map_const_zero {A B} (f : A -> Z) (l : list A) (l' : list B) :
  List.length l = List.length l' ->
  (forall x, In x l -> f x = 0%Z) ->
  map f l = map (fun _ => 0%Z) l'.
Proof.
  revert l'; induction l as [|x l IH]; intros [|y l'] Hlen Hz; simpl in *;
    try discriminate; [reflexivity|].
  f_equal; [apply Hz; auto | apply IH; auto].
Qed.

Lemma merge_matrix_of (docs : list string) (d : string) :
  fillna 0 (merge (matrix_of docs) (str (S (List.length docs))) (word_vector d))
  = matrix_of (docs ++ [d]).
Proof.
  unfold fillna, merge. rewrite words_matrix_of.
  unfold matrix_of. simpl doc_columns. simpl rows.
  f_equal.
  - rewrite length_app; simpl. rewrite Nat.add_1_r, seq_S, map_app. reflexivity.
  - rewrite terms_snoc. unfold add_terms.
    rewrite !map_app. f_equal.
    + rewrite !map_map. apply map_ext. intros w; simpl.
      rewrite !map_app, map_map; simpl. rewrite map_id. reflexivity.
    + unfold vocabulary.
      rewrite <- (filter_map_fst (fun w => negb (has_key w (terms docs)))).
      rewrite !map_map. apply map_ext_in. intros [w c] Hin; simpl.
      apply filter_In in Hin as [Hin Hk]; simpl in Hk.
      apply negb_true_iff, has_key_false in Hk.
      rewrite !map_app, map_map; simpl. f_equal. f_equal.
      * symmetry. apply map_const_zero.
        -- rewrite length_seq. reflexivity.
        -- intros x Hx. apply count_absent. intros Hw. apply Hk.
           apply terms_In. exists x. split; assumption.
      * unfold count. rewrite (lookup_In w c); [reflexivity | apply word_vector_ok | assumption].
Qed.

Lemma combine_snoc {A B} (l : list A) (r : list B) (x : A) (y : B) :
  List.length l = List.length r ->
  combine (l ++ [x]) (r ++ [y]) = combine l r ++ [(x, y)].
Proof.
  revert r; induction l as [|a l IH]; intros [|b r] Hlen; simpl in *;
    try discriminate; [reflexivity|].
  f_equal. apply IH. congruence.
Qed.

Lemma registry_of_snoc (docs : list string) (d : string) :
  registry_of docs ++ [(S (List.length docs), d)] = registry_of (docs ++ [d]).
Proof.
  unfold registry_of. rewrite length_app; simpl.
  rewrite Nat.add_1_r, seq_S.
  rewrite combine_snoc by (rewrite length_seq; reflexivity).
  reflexivity.
Qed.

Lemma written_closed (docs : list string) (text : string) :
  written text (mkFiles (Some (matrix_of docs)) (Some (registry_of docs)))
  = mkFiles (Some (matrix_of (docs ++ [text])))
            (Some (registry_of (docs ++ [text]))).
Proof.
  unfold written, next_id, columns, read_word_vec, stored_registry.
  cbn [word_vec_csv doc_by_id_csv List.length].
  rewrite doc_columns_matrix_of.
  rewrite merge_matrix_of, registry_of_snoc. reflexivity.
Qed.

(** Missing files are created with their headers before anything is read. *)
Lemma similarity_check_no_files (text : string) (b : bool) :
  similarity_check text b no_files = similarity_check text b header_only.
Proof. reflexivity. Qed.

Lemma replay_snoc (h : list (string * bool)) (call : string * bool) :
  replay (h ++ [call]) = step (replay h) call.
Proof. unfold replay. rewrite fold_left_app. reflexivity. Qed.

Lemma replay_closed (h : list (string * bool)) :
  replay h = mkFiles (Some (matrix_of (corpus h))) (Some (registry_of (corpus h))).
Proof.
  induction h as [|[text b] h IH] using rev_ind.
  - reflexivity.
  - rewrite replay_snoc. unfold step. rewrite similarity_check_written, IH.
    unfold corpus. rewrite map_app. apply written_closed.
Qed.

(** ** Cells of the merged table *)







(** ** Claims on the stored tables *)




(** ** Letter case and punctuation in the tokenizer *)

Lemma is_word_lower_char (c : ascii) :
  Chars.is_word (Chars.lower_char c) = Chars.is_word c.
Proof. destruct c as [[] [] [] [] [] [] [] []]; reflexivity. Qed.

Lemma lower_char_idem (c : ascii) :
  Chars.lower_char (Chars.lower_char c) = Chars.lower_char c.
Proof. destruct c as [[] [] [] [] [] [] [] []]; reflexivity. Qed.

Lemma lower_sub_nonword (in_run : bool) (s : string) :
  sub_nonword in_run (lower s) = lower (sub_nonword in_run s).
Proof.
  revert in_run; induction s as [|c r IH]; intros in_run; simpl; [reflexivity|].
  rewrite is_word_lower_char.
  destruct (Chars.is_word c); simpl; [rewrite IH; reflexivity|].
  destruct in_run; simpl; rewrite IH; reflexivity.
Qed.

Lemma lower_idem (s : string) : lower (lower s) = lower s.
Proof.
  induction s as [|c r IH]; simpl; [reflexivity|].
  rewrite lower_char_idem, IH. reflexivity.
Qed.

(** Letter case alone never changes the word vector. *)
Lemma word_vector_lower (s : string) : word_vector (lower s) = word_vector s.
Proof.
  unfold word_vector, ls_words, re_sub_W.
  rewrite lower_sub_nonword, lower_idem. reflexivity.
Qed.

(** C1.  The word vector of ["Cat, cat!"] is not the mapping of [cat] to 2
    alone: the mark at the end leaves an empty word behind, counted once,
    so the text does not get the word vector of ["cat cat"], from which it
    differs in letter case and punctuation only. *)
Theorem trailing_punctuation_leaves_empty_word :
  word_vector "Cat, cat!" = [("cat", 2%Z); ("", 1%Z)]
  /\ word_vector "cat cat" = [("cat", 2%Z)]
  /\ word_vector "Cat, cat!" <> word_vector "cat cat".
Proof.
  assert (H1 : word_vector "Cat, cat!" = [("cat", 2%Z); ("", 1%Z)])
    by reflexivity.
  assert (H2 : word_vector "cat cat" = [("cat", 2%Z)]) by reflexivity.
  split; [exact H1 | split; [exact H2 |]].
  rewrite H1, H2. discriminate.
Qed.

(** ** The write and the way a call ends *)

Lemma report_adding (ls_distance : list Q) (df_whole_doc : labelled)
    (index : nat) (sort_ls : list nat) :
  report true ls_distance df_whole_doc index sort_ls = Returned [].
Proof.
  revert index; induction sort_ls as [|key rest IH]; intros index; simpl.
  - reflexivity.
  - destruct (Nat.eqb index 2); [reflexivity | apply IH].
Qed.

Lemma report_starts_with_rule (b : bool) (ls_distance : list Q)
    (df_whole_doc : labelled) (index : nat) (sort_ls : list nat)
    (out : list line) :
  report b ls_distance df_whole_doc index sort_ls = Returned out ->
  out = [] \/ exists rest, out = Rule :: rest.
Proof.
  destruct b.
  - rewrite report_adding. intros H; inversion H; auto.
  - destruct sort_ls as [|key rest]; simpl.
    + intros H; inversion H; auto.
    + destruct (at_text df_whole_doc key) as [|t ts]; [discriminate|].
      destruct (if Nat.eqb index 2 then _ else _) as [out'| |]; simpl;
        try discriminate.
      intros H; inversion H. right. eauto.
Qed.

Lemma compare_documents_not_AddMore (b : bool) (doc_id : nat)
    (df : DataFrame Z) (df_whole_doc : labelled) :
  compare_documents b doc_id df df_whole_doc <> Returned [AddMore].
Proof.
  unfold compare_documents.
  destruct (getitem _ _) as [search|]; [|discriminate].
  destruct (all_some _) as [ds|].
  - intros H. apply report_starts_with_rule in H as [H|[rest H]]; discriminate.
  - destruct b; discriminate.
Qed.

Lemma next_id_one (fs : files) :
  Nat.eqb (next_id fs) 1 = true <-> doc_columns (read_word_vec fs) = [].
Proof.
  unfold next_id, columns; simpl. rewrite Nat.eqb_eq.
  destruct (doc_columns (read_word_vec fs)); simpl; split; congruence.
Qed.

(** C5.  A call that asks for a comparison while the matrix holds no
    document but the new one prints the request for more documents, and
    nothing else, and returns; no ranking line is printed and no exception
    is raised.  No other call ends that way. *)
Theorem insufficient_corpus_is_reported :
  (forall text fs,
     doc_columns (read_word_vec fs) = [] ->
     snd (similarity_check text false fs) = Returned [AddMore])
  /\ (forall text b fs,
        snd (similarity_check text b fs) = Returned [AddMore] ->
        b = false /\ doc_columns (read_word_vec fs) = []).
Proof.
  split.
  - intros text fs Hcols. rewrite similarity_check_outcome.
    apply next_id_one in Hcols. rewrite Hcols. reflexivity.
  - intros text b fs. rewrite similarity_check_outcome.
    destruct (Nat.eqb (next_id fs) 1) eqn:Hid; simpl.
    + destruct b; simpl.
      * intros H. exfalso. exact (compare_documents_not_AddMore _ _ _ _ H).
      * intros _. split; [reflexivity | apply next_id_one, Hid].
    + intros H. exfalso. exact (compare_documents_not_AddMore _ _ _ _ H).
Qed.

Lemma insufficient_corpus_is_reported_witness :
  doc_columns (read_word_vec header_only) = []
  /\ snd (similarity_check "cat" false header_only) = Returned [AddMore]
  /\ (false = false /\ doc_columns (read_word_vec header_only) = []).
Proof.
  split; [reflexivity|]. split.
  - apply (proj1 insufficient_corpus_is_reported "cat" header_only). reflexivity.
  - apply (proj2 insufficient_corpus_is_reported "cat" false header_only).
    reflexivity.
Defined.



(** ** Column names *)

Lemma str_inj (a b : nat) : str a = str b -> a = b.
Proof.
  unfold str. intros H.
  apply (f_equal NilEmpty.uint_of_string) in H.
  rewrite !NilEmpty.usu in H. inversion H as [H'].
  apply (f_equal Nat.of_uint) in H'.
  rewrite !Unsigned.of_to in H'. exact H'.
Qed.

Lemma combine_seq_names (start len : nat) :
  combine (seq start len) (map str (seq (S start) len))
  = map (fun j => (j, str (S j))) (seq start len).
Proof.
  revert start; induction len as [|len IH]; intros start; simpl; [reflexivity|].
  f_equal. apply IH.
Qed.

Lemma getitem_named {A} (f : nat -> A) (l : list nat) (j : nat) :
  In j l ->
  getitem (str (S j)) (map (fun i => (str (S i), f i)) l) = Some (f j).
Proof.
  induction l as [|i l IH]; simpl; [contradiction|].
  destruct (String.eqb_spec (str (S i)) (str (S j))) as [Heq|Hne].
  - intros _. apply str_inj in Heq. inversion Heq; subst. reflexivity.
  - intros [->|Hin]; [contradiction | auto].
Qed.

Lemma filter_all {A} (p : A -> bool) (l : list A) :
  (forall x, In x l -> p x = true) -> filter p l = l.
Proof.
  induction l as [|x l IH]; simpl; intros H; [reflexivity|].
  rewrite (H x) by auto. f_equal. apply IH. auto.
Qed.

Lemma candidates_named {A} (f : nat -> A) (n : nat) :
  candidates (str (S n)) (map (fun i => (str (S i), f i)) (seq 0 (S n)))
  = map (fun i => (str (S i), f i)) (seq 0 n).
Proof.
  unfold candidates. rewrite seq_S, map_app, filter_app; simpl.
  rewrite String.eqb_refl; simpl. rewrite app_nil_r.
  apply filter_all. intros x Hx.
  apply in_map_iff in Hx as [i [<- Hi]]. simpl.
  apply negb_true_iff. apply String.eqb_neq. intros Heq.
  apply str_inj in Heq. apply in_seq in Hi. lia.
Qed.

(** ** Column totals *)

Lemma total_positive (l : list Z) :
  Forall (fun x => (0 <= x)%Z) l -> (exists x, In x l /\ (1 <= x)%Z) ->
  (1 <= total l)%Z.
Proof.
  intros Hall [x [Hin Hx]].
  assert (Hnn : forall l', Forall (fun x => (0 <= x)%Z) l' -> (0 <= total l')%Z).
  { induction 1; simpl; lia. }
  induction Hall as [|y l Hy Hall IH]; simpl in *; [contradiction|].
  destruct Hin as [->|Hin].
  - specialize (Hnn l Hall). lia.
  - specialize (IH Hin). lia.
Qed.

Lemma column_matrix_of (docs : list string) (j : nat) (d : string) :
  nth_error docs j = Some d ->
  column 0%Z (matrix_of docs) j
  = map (fun w => count w (word_vector d)) (terms docs).
Proof.
  intros Hd. unfold column, matrix_of; simpl. rewrite map_map; simpl.
  apply map_ext. intros w.
  apply nth_error_nth. rewrite nth_error_map, Hd. reflexivity.
Qed.

Lemma column_total_positive (docs : list string) (j : nat) :
  j < List.length docs -> (1 <= total (column 0%Z (matrix_of docs) j))%Z.
Proof.
  intros Hj.
  destruct (nth_error docs j) as [d|] eqn:Hd;
    [|apply nth_error_None in Hd; lia].
  rewrite (column_matrix_of docs j d Hd).
  apply total_positive.
  - apply Forall_forall. intros x Hx.
    apply in_map_iff in Hx as [w [<- _]]. apply count_nonneg, word_vector_ok.
  - destruct (vocabulary_nonempty d) as [k Hk].
    exists (count k (word_vector d)). split.
    + apply in_map_iff. exists k. split; [reflexivity|].
      apply terms_In. exists d. split; [eapply nth_error_In; eassumption|].
      exact Hk.
    + apply count_present; [apply word_vector_ok | exact Hk].
Qed.

Lemma normalise_freq_vector (df : DataFrame Z) (j : nat) :
  total (column 0%Z df j) <> 0%Z ->
  normalise (column 0%Z df j) = Some (freq_vector df j).
Proof.
  intros H. unfold normalise, freq_vector.
  apply Z.eqb_neq in H. rewrite H. reflexivity.
Qed.

Lemma word_vec_freq_matrix_of (docs : list string) :
  word_vec_freq (matrix_of docs)
  = map (fun j => (str (S j), Some (freq_vector (matrix_of docs) j)))
        (seq 0 (List.length docs)).
Proof.
  unfold word_vec_freq. rewrite doc_columns_matrix_of.
  replace (doc_columns (matrix_of docs))
    with (map str (seq 1 (List.length docs))) by reflexivity.
  rewrite combine_seq_names, map_map; simpl.
  apply map_ext_in. intros j Hj. apply in_seq in Hj.
  rewrite normalise_freq_vector; [reflexivity|].
  assert (Hlt : j < List.length docs) by lia.
  pose proof (column_total_positive docs j Hlt). lia.
Qed.

(** ** The stable sort *)











(** ** The printing loop *)





(** ** A call after a history *)

Lemma all_some_map {A B} (f : A -> B) (l : list A) :
  all_some (map (fun x => Some (f x)) l) = Some (map f l).
Proof.
  induction l as [|x l IH]; simpl; [reflexivity|]. rewrite IH. reflexivity.
Qed.


(** The distances a call computes once [docs] are stored: one for each
    stored document, in column order. *)
Lemma distances_closed (docs : list string) (text : string) :
  let n := List.length docs in
  let df := matrix_of (docs ++ [text]) in
  getitem (str (S n)) (word_vec_freq df) = Some (Some (freq_vector df n))
  /\ candidates (str (S n)) (word_vec_freq df)
     = map (fun j => (str (S j), Some (freq_vector df j))) (seq 0 n)
  /\ distances (str (S n)) (Some (freq_vector df n)) (word_vec_freq df)
     = map (fun j => Some (dist2 df n j)) (seq 0 n).
Proof.
  cbv zeta. rewrite word_vec_freq_matrix_of.
  rewrite length_app; simpl List.length. rewrite Nat.add_1_r.
  split; [|split].
  - apply (getitem_named (fun j => Some (freq_vector _ j))).
    apply in_seq. lia.
  - apply (candidates_named (fun j => Some (freq_vector _ j))).
  - unfold distances.
    rewrite (candidates_named (fun j => Some (freq_vector _ j))).
    rewrite map_map. reflexivity.
Qed.

Lemma compare_documents_closed (docs : list string) (text : string) (b : bool)
    (df_whole_doc : labelled) :
  let n := List.length docs in
  let ds := map (dist2 (matrix_of (docs ++ [text])) n) (seq 0 n) in
  compare_documents b (S n) (matrix_of (docs ++ [text])) df_whole_doc
  = report b ds df_whole_doc 0 (sorted_by (fun k => nth k ds 0%Q) (seq 0 n)).
Proof.
  cbv zeta. unfold compare_documents.
  destruct (distances_closed docs text) as [Hown [_ Hds]].
  rewrite Hown, Hds, all_some_map, length_map, length_seq. reflexivity.
Qed.

Lemma outcome_replay (h : list (string * bool)) (text : string) (b : bool) :
  let n := List.length h in
  let ds := map (dist2 (matrix_of (corpus h ++ [text])) n) (seq 0 n) in
  snd (similarity_check text b (replay h))
  = if Nat.eqb n 0 && negb b then Returned [AddMore]
    else report b ds
           (concat_entry (read_registry (registry_of (corpus h))) (S n) text)
           0 (sorted_by (fun k => nth k ds 0%Q) (seq 0 n)).
Proof.
  cbv zeta. rewrite similarity_check_outcome, replay_closed.
  rewrite written_closed.
  assert (Hlen : List.length (corpus h) = List.length h)
    by (unfold corpus; apply length_map).
  assert (Hid : next_id (mkFiles (Some (matrix_of (corpus h)))
                                 (Some (registry_of (corpus h))))
                = S (List.length h)).
  { unfold next_id, columns, read_word_vec; cbn [word_vec_csv List.length].
    rewrite doc_columns_matrix_of, Hlen. reflexivity. }
  rewrite Hid. cbn [Nat.eqb].
  destruct (Nat.eqb (List.length h) 0 && negb b); [reflexivity|].
  unfold read_word_vec, stored_registry; cbn [word_vec_csv doc_by_id_csv].
  rewrite <- Hlen. apply compare_documents_closed.
Qed.



Lemma report_not_nan (b : bool) (ls_distance : list Q) (df_whole_doc : labelled)
    (index : nat) (sort_ls : list nat) :
  report b ls_distance df_whole_doc index sort_ls <> NotANumber.
Proof.
  revert index; induction sort_ls as [|key rest IH]; intros index; simpl.
  - discriminate.
  - assert (Hnext : (if Nat.eqb index 2 then Returned []
                     else report b ls_distance df_whole_doc (S index) rest)
                    <> NotANumber).
    { destruct (Nat.eqb index 2); [discriminate | apply IH]. }
    destruct b; [exact Hnext|].
    destruct (at_text df_whole_doc key); [discriminate|].
    destruct (if Nat.eqb index 2 then _ else _); simpl; congruence.
Qed.


(** ** Claims on the ranking *)

(** C9.  The word vector of any text, the empty one included, has a word
    counted at least once.  Hence after any history every document column
    of the matrix sums to at least 1, its frequencies are defined, and no
    call ends with an undefined distance. *)
Theorem no_division_by_zero :
  (forall s, exists w c, In (w, c) (word_vector s) /\ (1 <= c)%Z)
  /\ (forall h j,
        j < List.length h ->
        (1 <= total (column 0%Z (read_word_vec (replay h)) j))%Z
        /\ normalise (column 0%Z (read_word_vec (replay h)) j) <> None)
  /\ (forall h text b, snd (similarity_check text b (replay h)) <> NotANumber).
Proof.
  split; [|split].
  - intros s. pose proof (word_vector_nonempty s) as Hne.
    destruct (word_vector_ok s) as [_ Hpos].
    destruct (word_vector s) as [|[w c] rest]; [congruence|].
    exists w, c. split; [left; reflexivity|].
    inversion Hpos; assumption.
  - intros h j Hj. rewrite replay_closed.
    unfold read_word_vec; cbn [word_vec_csv].
    assert (Hpos : (1 <= total (column 0%Z (matrix_of (corpus h)) j))%Z).
    { apply column_total_positive. unfold corpus. rewrite length_map. exact Hj. }
    split; [exact Hpos|].
    rewrite normalise_freq_vector by lia. discriminate.
  - intros h text b. rewrite outcome_replay.
    destruct (_ && _); [discriminate | apply report_not_nan].
Qed.

Lemma no_division_by_zero_witness :
  1 < List.length [("cat dog", true); ("", true)]
  /\ (1 <= total (column 0%Z
                    (read_word_vec (replay [("cat dog", true); ("", true)])) 1))%Z.
Proof.
  split; [simpl; lia|].
  apply (proj1 (proj2 no_division_by_zero) [("cat dog", true); ("", true)] 1).
  simpl; lia.
Defined.



(** ** Frequency vectors with disjoint supports *)

Section Frequencies.

Local Open Scope Q_scope.

(** Two columns over the same rows, given by the counts [f] and [g] of each
    word, scaled by [a] and [b]. *)
Variables (f g : string -> Z) (a b : Q).




Lemma qsum_scaled (l : list string) :
  qsum (scaled f a l) == inject_Z (total (map f l)) / a.
Proof.
  unfold scaled. induction l as [|w l IH]; simpl.
  - unfold Qdiv; ring.
  - rewrite IH, inject_Z_plus. unfold Qdiv; ring.
Qed.

End Frequencies.

Lemma normsq_le_square (x : list Q) :
  Forall (fun q => (0 <= q)%Q) x ->
  (0 <= qsum x)%Q /\ (normsq x <= qsum x * qsum x)%Q.
Proof.
  unfold normsq.
  induction 1 as [|q x Hq Hx [IH0 IH]]; simpl.
  - split; [apply Qle_refl | ring_simplify; apply Qle_refl].
  - split; [lra | nra].
Qed.

Lemma freq_vector_matrix_of (docs : list string) (j : nat) (d : string) :
  nth_error docs j = Some d ->
  freq_vector (matrix_of docs) j
  = scaled (fun w => count w (word_vector d))
           (inject_Z (total (column 0%Z (matrix_of docs) j))) (terms docs).
Proof.
  intros Hd. unfold freq_vector.
  set (t := total (column 0%Z (matrix_of docs) j)).
  rewrite (column_matrix_of docs j d Hd), map_map. reflexivity.
Qed.

Lemma freq_vector_nonneg (docs : list string) (j : nat) :
  j < List.length docs ->
  Forall (fun q => (0 <= q)%Q) (freq_vector (matrix_of docs) j).
Proof.
  intros Hj.
  destruct (nth_error docs j) as [d|] eqn:Hd;
    [|apply nth_error_None in Hd; lia].
  rewrite (freq_vector_matrix_of docs j d Hd).
  pose proof (column_total_positive docs j Hj) as Hpos.
  apply Forall_forall. intros q Hq. apply in_map_iff in Hq as [w [<- _]].
  apply Qle_shift_div_l.
  - change 0%Q with (inject_Z 0). rewrite <- Zlt_Qlt. lia.
  - rewrite Qmult_0_l. change 0%Q with (inject_Z 0). rewrite <- Zle_Qle.
    apply count_nonneg, word_vector_ok.
Qed.

Lemma freq_vector_sum (docs : list string) (j : nat) :
  j < List.length docs ->
  (qsum (freq_vector (matrix_of docs) j) == 1)%Q.
Proof.
  intros Hj.
  destruct (nth_error docs j) as [d|] eqn:Hd;
    [|apply nth_error_None in Hd; lia].
  rewrite (freq_vector_matrix_of docs j d Hd).
  pose proof (column_total_positive docs j Hj) as Hpos.
  rewrite qsum_scaled. rewrite <- (column_matrix_of docs j d Hd).
  apply Qmult_inv_r. intros H0.
  apply (proj1 (inject_Z_injective _ 0%Z)) in H0. lia.
Qed.

Lemma freq_vector_normsq (docs : list string) (j : nat) :
  j < List.length docs ->
  (normsq (freq_vector (matrix_of docs) j) <= 1)%Q.
Proof.
  intros Hj.
  destruct (normsq_le_square _ (freq_vector_nonneg docs j Hj)) as [_ H].
  rewrite (freq_vector_sum docs j Hj) in H. lra.
Qed.






(** ** Claims on distances *)







(** * Further properties *)

(** ** The three passes of line 40 as one *)

Lemma is_space_lower_word (c : ascii) :
  Chars.is_word c = true -> Chars.is_space (Chars.lower_char c) = false.
Proof. destruct c as [[] [] [] [] [] [] [] []]; vm_compute; congruence. Qed.

Lemma split_lower_sub (in_run : bool) (s : string) :
  split_space in_run (lower (sub_nonword in_run s)) = scan in_run s.
Proof.
  revert in_run; induction s as [|c r IH]; intros in_run; simpl; [reflexivity|].
  destruct (Chars.is_word c) eqn:Hw; simpl.
  - rewrite (is_space_lower_word c Hw), IH. reflexivity.
  - destruct in_run; simpl; rewrite IH; reflexivity.
Qed.

Lemma ls_words_scan (s : string) : ls_words s = scan false s.
Proof. apply split_lower_sub. Qed.

Lemma scan_nonempty (in_run : bool) (s : string) : scan in_run s <> [].
Proof.
  rewrite <- split_lower_sub. apply split_space_nonempty.
Qed.

(** ** The counting loop *)

Lemma count_count_word (x : string) (dic : dict) (w : string) :
  count w (count_word x dic)
  = (count w dic + if String.eqb x w then 1 else 0)%Z.
Proof.
  unfold count. induction dic as [|[k v] rest IH]; simpl.
  - destruct (String.eqb x w); reflexivity.
  - destruct (String.eqb_spec k x) as [->|Hkx]; simpl.
    + destruct (String.eqb_spec x w) as [->|Hxw]; [reflexivity | lia].
    + destruct (String.eqb_spec k w) as [->|Hkw]; [|exact IH].
      destruct (String.eqb_spec x w) as [->|_]; [congruence | lia].
Qed.

Lemma counting_loop_count (ws : list string) (dic : dict) (w : string) :
  count w (fold_left (fun dic word => count_word word dic) ws dic)
  = (count w dic + occurrences w ws)%Z.
Proof.
  unfold occurrences.
  revert dic; induction ws as [|x ws IH]; intros dic; simpl; [lia|].
  rewrite IH, count_count_word.
  destruct (string_dec x w) as [->|Hne].
  - rewrite String.eqb_refl. lia.
  - apply String.eqb_neq in Hne. rewrite Hne. lia.
Qed.

(** X1.  The word vector counts occurrences: the count of a word is the
    number of times it occurs among the pieces that line 40 splits the text
    into, 0 for a word that is no key, and the keys are those pieces, each
    once. *)
Theorem word_vector_counts_occurrences :
  forall s w,
    count w (word_vector s) = occurrences w (ls_words s)
    /\ (In w (vocabulary s) <-> In w (ls_words s))
    /\ (lookup w (word_vector s) = None <-> ~ In w (ls_words s))
    /\ NoDup (vocabulary s).
Proof.
  intros s w. split; [|split; [|split]].
  - unfold word_vector. rewrite counting_loop_count. reflexivity.
  - apply vocabulary_words.
  - rewrite lookup_None. fold (vocabulary s). rewrite vocabulary_words.
    reflexivity.
  - apply vocabulary_NoDup.
Qed.

(** ** The shape of the pieces *)








(** ** Where the empty word comes from *)

Lemma hd_scan_true (s : string) :
  hd EmptyString (scan true s) = EmptyString
  <-> all_chars (fun c => negb (Chars.is_word c)) s = true.
Proof.
  induction s as [|c r IH]; simpl; [intuition|].
  destruct (Chars.is_word c); simpl.
  - destruct (scan false r); simpl; split; discriminate.
  - exact IH.
Qed.

Lemma all_nonword_ends (s : string) :
  all_chars (fun c => negb (Chars.is_word c)) s = true ->
  s <> EmptyString -> ends_nonword s = true.
Proof.
  induction s as [|c r IH]; simpl; [congruence|].
  intros H _. apply andb_true_iff in H as [Hc Hr].
  destruct r as [|c' r']; [exact Hc|].
  apply IH; [exact Hr | discriminate].
Qed.

Lemma ends_nonword_cons (c : ascii) (r : string) :
  ends_nonword (String c r)
  = match r with
    | EmptyString => negb (Chars.is_word c)
    | _ => ends_nonword r
    end.
Proof. destruct r; reflexivity. Qed.

Lemma tl_scan (s : string) :
  (In EmptyString (tl (scan false s)) <-> ends_nonword s = true)
  /\ (In EmptyString (tl (scan true s))
      <-> ends_nonword s = true
          /\ all_chars (fun c => negb (Chars.is_word c)) s = false).
Proof.
  induction s as [|c r [IH1 IH2]].
  - simpl. split; split; [contradiction | discriminate | contradiction |].
    intros [H _]; discriminate.
  - rewrite ends_nonword_cons. cbn [scan all_chars].
    destruct (Chars.is_word c) eqn:Hw; cbn [negb andb].
    + assert (Htl : tl (match scan false r with
                        | p :: ps => String (Chars.lower_char c) p :: ps
                        | [] => [String (Chars.lower_char c) EmptyString]
                        end) = tl (scan false r)).
      { pose proof (scan_nonempty false r).
        destruct (scan false r); [congruence | reflexivity]. }
      rewrite Htl, IH1.
      assert (He : match r with
                   | EmptyString => false
                   | String _ _ => ends_nonword r
                   end = ends_nonword r) by (destruct r; reflexivity).
      rewrite He. split; [reflexivity|]. split; [auto | tauto].
    + split.
      * cbn [tl].
        pose proof (scan_nonempty true r) as Hne.
        pose proof (hd_scan_true r) as Hhd.
        destruct (scan true r) as [|p ps] eqn:E; [congruence|].
        cbn [hd tl] in *. cbn [In].
        destruct r as [|c' r'].
        -- simpl in E. inversion E; subst. tauto.
        -- split.
           ++ intros [Hp|Hps].
              ** apply all_nonword_ends; [|discriminate].
                 apply (proj1 Hhd). auto.
              ** apply (proj1 IH2) in Hps. tauto.
           ++ intros He.
              destruct (all_chars (fun c0 => negb (Chars.is_word c0))
                                  (String c' r')) eqn:Ha.
              ** left. apply (proj2 Hhd). reflexivity.
              ** right. apply (proj2 IH2). auto.
      * rewrite IH2. destruct r as [|c' r']; [|reflexivity].
        simpl. split; [intros [H _]; discriminate | intros [_ H]; discriminate].
Qed.

(** X4.  The empty word is a key of the word vector exactly when the text
    is empty or begins or ends with a character that is no word character;
    non-word characters inside the text never make one. *)
Theorem empty_word_comes_from_the_ends :
  forall s,
    In EmptyString (vocabulary s)
    <-> s = EmptyString \/ starts_nonword s = true \/ ends_nonword s = true.
Proof.
  intros s. rewrite vocabulary_words, ls_words_scan.
  pose proof (scan_nonempty false s) as Hne.
  destruct (tl_scan s) as [Htl _].
  assert (Hhd : hd EmptyString (scan false s) = EmptyString
                <-> s = EmptyString \/ starts_nonword s = true).
  { destruct s as [|c r]; simpl; [intuition|].
    destruct (Chars.is_word c); simpl.
    - destruct (scan false r); simpl; split;
        [discriminate | intros [H|H]; discriminate
        | discriminate | intros [H|H]; discriminate].
    - intuition. }
  destruct (scan false s) as [|p ps]; [congruence|].
  cbn [hd tl In] in *. tauto.
Qed.

(** ** Non-word characters are one separator *)

Lemma scan_nonword_any (in_run : bool) (s1 s2 : string) (c1 c2 : ascii) :
  Chars.is_word c1 = false -> Chars.is_word c2 = false ->
  scan in_run (String.append s1 (String c1 s2))
  = scan in_run (String.append s1 (String c2 s2)).
Proof.
  intros H1 H2. revert in_run; induction s1 as [|c r IH]; intros in_run; simpl.
  - rewrite H1, H2. reflexivity.
  - rewrite (IH false), (IH true). reflexivity.
Qed.

Lemma scan_nonword_run (in_run : bool) (s1 s2 : string) (c1 c2 : ascii) :
  Chars.is_word c1 = false -> Chars.is_word c2 = false ->
  scan in_run (String.append s1 (String c1 (String c2 s2)))
  = scan in_run (String.append s1 (String c1 s2)).
Proof.
  intros H1 H2. revert in_run; induction s1 as [|c r IH]; intros in_run; simpl.
  - rewrite H1, H2. reflexivity.
  - rewrite (IH false), (IH true). reflexivity.
Qed.

(** X5.  Which non-word character stands at a place does not matter, nor how
    many stand in a row: replacing one by another, or dropping one that
    follows another, leaves the word vector as it is. *)
Theorem punctuation_is_one_separator :
  forall s1 s2 c1 c2,
    Chars.is_word c1 = false -> Chars.is_word c2 = false ->
    word_vector (String.append s1 (String c1 s2))
    = word_vector (String.append s1 (String c2 s2))
    /\ word_vector (String.append s1 (String c1 (String c2 s2)))
       = word_vector (String.append s1 (String c1 s2)).
Proof.
  intros s1 s2 c1 c2 H1 H2. unfold word_vector. rewrite !ls_words_scan.
  split.
  - rewrite (scan_nonword_any false s1 s2 c1 c2 H1 H2). reflexivity.
  - rewrite (scan_nonword_run false s1 s2 c1 c2 H1 H2). reflexivity.
Qed.

Lemma punctuation_is_one_separator_witness :
  Chars.is_word "," = false /\ Chars.is_word " " = false
  /\ word_vector "cat,dog" = word_vector "cat dog"
  /\ word_vector "cat, dog" = word_vector "cat,dog".
Proof.
  split; [reflexivity|]. split; [reflexivity|].
  exact (punctuation_is_one_separator "cat" "dog" "," " " eq_refl eq_refl).
Defined.

(** ** What the stored matrix holds *)





(** ** Column totals and frequencies *)












(** ** Bounds on the distances *)

Lemma square_nonneg (a : Q) : (0 <= a * a)%Q.
Proof. nra. Qed.

Lemma sqdist_nonneg (u v : list Q) : (0 <= sqdist u v)%Q.
Proof.
  revert v; induction u as [|x u IH]; intros [|y v]; simpl;
    try apply Qle_refl.
  specialize (IH v). pose proof (square_nonneg (x - y)). lra.
Qed.

Lemma normsq_nonneg (u : list Q) : (0 <= normsq u)%Q.
Proof.
  unfold normsq. induction u as [|x u IH]; simpl; [apply Qle_refl|].
  pose proof (square_nonneg x). lra.
Qed.

Lemma sqdist_le_normsq (u v : list Q) :
  Forall (fun q => (0 <= q)%Q) u -> Forall (fun q => (0 <= q)%Q) v ->
  (sqdist u v <= normsq u + normsq v)%Q.
Proof.
  intros Hu. revert v. induction Hu as [|x u Hx Hu IH]; intros v Hv.
  - pose proof (normsq_nonneg v). simpl. unfold normsq at 1. simpl. lra.
  - destruct Hv as [|y v Hy Hv].
    + pose proof (normsq_nonneg (x :: u)). simpl. unfold normsq at 2. simpl. lra.
    + specialize (IH v Hv). unfold normsq in *. simpl. nra.
Qed.

Lemma sqdist_sym (u v : list Q) : (sqdist u v == sqdist v u)%Q.
Proof.
  revert v; induction u as [|x u IH]; intros [|y v]; simpl; try reflexivity.
  rewrite (IH v). ring.
Qed.

Lemma sqdist_self (u : list Q) : (sqdist u u == 0)%Q.
Proof.
  induction u as [|x u IH]; simpl; [reflexivity|]. rewrite IH. ring.
Qed.

(** X9.  After any history the squared distance between the frequency
    vectors of two stored texts lies between 0 and 2 (the distance between 0
    and the square root of 2), does not depend on the order of the two, and
    is 0 between a text and itself. *)
Theorem distances_are_bounded :
  forall h i j,
    i < List.length h -> j < List.length h ->
    let df := read_word_vec (replay h) in
    (0 <= dist2 df i j)%Q /\ (dist2 df i j <= 2)%Q
    /\ (dist2 df i j == dist2 df j i)%Q
    /\ (dist2 df i i == 0)%Q.
Proof.
  intros h i j Hi Hj. cbv zeta. rewrite replay_closed.
  unfold read_word_vec; cbn [word_vec_csv].
  assert (Hlen : List.length (corpus h) = List.length h)
    by (unfold corpus; apply length_map).
  rewrite <- Hlen in Hi, Hj. unfold dist2.
  split; [apply sqdist_nonneg|]. split; [|split].
  - pose proof (sqdist_le_normsq _ _ (freq_vector_nonneg _ i Hi)
                                 (freq_vector_nonneg _ j Hj)).
    pose proof (freq_vector_normsq _ i Hi).
    pose proof (freq_vector_normsq _ j Hj). lra.
  - apply sqdist_sym.
  - apply sqdist_self.
Qed.

Lemma distances_are_bounded_witness :
  let h := [("cat dog", true); ("fish", true)] in
  0 < List.length h /\ 1 < List.length h
  /\ (dist2 (read_word_vec (replay h)) 0 1 <= 2)%Q.
Proof.
  cbv zeta.
  assert (H0 : 0 < List.length [("cat dog", true); ("fish", true)])
    by (simpl; lia).
  assert (H1 : 1 < List.length [("cat dog", true); ("fish", true)])
    by (simpl; lia).
  split; [exact H0|]. split; [exact H1|].
  exact (proj1 (proj2 (distances_are_bounded _ 0 1 H0 H1))).
Defined.

(** ** A query with the words of a stored text *)




(** ** What any call prints, whatever the files hold *)

Lemma ranks_entry (r : nat) (d : Q) (texts : list string) (o : outcome) :
  ranks (printed (printed_first [Rule; Header r d; Text texts] o))
  = match o with
    | NotANumber => []
    | _ => r :: ranks (printed o)
    end.
Proof. destruct o; reflexivity. Qed.

Lemma report_ranks (b : bool) (ls_distance : list Q) (df_whole_doc : labelled)
    (sort_ls : list nat) (index : nat) :
  index <= 2 ->
  exists m,
    m <= 3 - index
    /\ ranks (printed (report b ls_distance df_whole_doc index sort_ls))
       = seq (index + 1) m.
Proof.
  destruct b.
  { intros _. rewrite report_adding. exists 0. split; [lia | reflexivity]. }
  revert index; induction sort_ls as [|key rest IH]; intros index Hi.
  - exists 0. split; [lia | reflexivity].
  - cbn [report]. destruct (at_text df_whole_doc key) as [|t ts].
    { exists 1. split; [lia | reflexivity]. }
    change ([Rule; Header (index + 1) (nth key ls_distance 0%Q)] ++ [Text (t :: ts)])
      with [Rule; Header (index + 1) (nth key ls_distance 0%Q); Text (t :: ts)].
    rewrite ranks_entry.
    destruct (Nat.eqb_spec index 2) as [->|Hne].
    + exists 1. split; [lia | reflexivity].
    + destruct (IH (S index)) as [m [Hm Hr]]; [lia|].
      destruct (report false ls_distance df_whole_doc (S index) rest) eqn:E.
      * exists (S m). split; [lia|]. simpl in Hr. simpl. rewrite Hr.
        replace (S index + 1) with (S (index + 1)) by lia. reflexivity.
      * exists (S m). split; [lia|]. simpl in Hr. simpl. rewrite Hr.
        replace (S index + 1) with (S (index + 1)) by lia. reflexivity.
      * exists 0. split; [lia | reflexivity].
Qed.

(** X11.  Whatever the two files hold, a call prints at most three entries,
    and the ranks on them are 1, 2, 3 in that order; this also holds of a
    call that raises. *)
Theorem at_most_three_entries :
  forall text b fs,
    exists m,
      m <= 3
      /\ ranks (printed (snd (similarity_check text b fs))) = seq 1 m.
Proof.
  intros text b fs. rewrite similarity_check_outcome.
  destruct (_ && _); [exists 0; split; [lia | reflexivity]|].
  unfold compare_documents.
  destruct (getitem _ _); [|exists 0; split; [lia | reflexivity]].
  destruct (all_some _).
  - apply (report_ranks b _ _ _ 0). lia.
  - exists 0. split; [lia|]. destruct b; reflexivity.
Qed.




(** ** The text looked up for a ranked key *)






(** ** What a call keeps true of any stored table *)



